(** * StudyMate chat client: input capture, message rendering, response type

    A shallow embedding of the front-end sources

    - [types] (interfaces [Message] and [ChatResponse]),
    - [ChatInput] (the text box with its [handleSend] and [handleKeyPress]),
    - [ChatMessage] (the renderer of one conversation entry),

    followed by the properties the specification states about them. *)

From stdpp Require Import base option list strings gmap.
From Stdlib Require Import NArith ZArith Ascii String.

Local Open Scope N_scope.

(** ** JavaScript values the components compute with *)

Module JS.

(** A JavaScript string is a sequence of UTF-16 code units. *)
Abbreviation jsstring := (list N).

(** Source literals made of ASCII characters only. *)
Fixpoint lit (s : string) : jsstring :=
  match s with
  | EmptyString => []
  | String a s' => N_of_ascii a :: lit s'
  end.

(** ECMAScript [WhiteSpace] and [LineTerminator] code points, the ones
    [String.prototype.trim] strips.  All of them lie in the basic plane,
    so a test on one code unit is exact. *)
Definition isWhiteSpace (c : N) : bool :=
  (c =? 0x09) || (c =? 0x0A) || (c =? 0x0B) || (c =? 0x0C) || (c =? 0x0D)
  || (c =? 0x20) || (c =? 0xA0) || (c =? 0x1680)
  || ((0x2000 <=? c) && (c <=? 0x200A))
  || (c =? 0x2028) || (c =? 0x2029) || (c =? 0x202F) || (c =? 0x205F)
  || (c =? 0x3000) || (c =? 0xFEFF).

(** [String.prototype.trimStart]. *)
Fixpoint trimStart (s : jsstring) : jsstring :=
  match s with
  | [] => []
  | c :: s' => if isWhiteSpace c then trimStart s' else s
  end.

(** [String.prototype.trimEnd]. *)
Definition trimEnd (s : jsstring) : jsstring :=
  reverse (trimStart (reverse s)).

(** [String.prototype.trim]: white space removed at both ends. *)
Definition trim (s : jsstring) : jsstring := trimEnd (trimStart s).

(** [ToBoolean] on a string: only the empty string is falsy. *)
Definition truthy (s : jsstring) : bool :=
  match s with [] => false | _ :: _ => true end.

(** [ToBoolean] on an optional boolean property ([undefined] is falsy). *)
Definition truthyFlag (b : option bool) : bool :=
  match b with Some true => true | _ => false end.

(** Strict equality [===] of two strings. *)
Fixpoint strictEq (s t : jsstring) : bool :=
  match s, t with
  | [], [] => true
  | c :: s', d :: t' => (c =? d) && strictEq s' t'
  | _, _ => false
  end.

End JS.
Import JS.

(** ** ChatInput *)

(** [ChatInputProps].  The callback [onSendMessage] is the environment of the
    component: a call to it is recorded as the action [OnSendMessage]. *)
Record ChatInputProps := { disabled : option bool }.

(** The part of React's [KeyboardEvent] a handler can consult. *)
Record KeyboardEvent := {
  key : jsstring;
  shiftKey : bool;
  ctrlKey : bool;
  altKey : bool;
  metaKey : bool
}.

(** What a handler does, in program order.  [setInput] does not assign: it
    queues the next value of the state, which React installs once the handler
    has returned. *)
Inductive Action :=
| OnSendMessage (message : jsstring)
| SetInput (value : jsstring)
| PreventDefault.

(** A handler returns nothing; it is the sequence of the actions it performs. *)
Definition Handler := list Action.

Definition skip : Handler := [].
Definition andThen (h k : Handler) : Handler := h ++ k.
Definition call (a : Action) : Handler := [a].

Declare Scope handler_scope.
Delimit Scope handler_scope with handler.
Notation "h ;; k" := (andThen h k)
  (at level 100, k at level 200, right associativity) : handler_scope.
Local Open Scope handler_scope.

Section ChatInput.
(** One render of the component: its props and the current value of the
    [useState('')] cell, both captured by the handlers' closures. *)
Variable props : ChatInputProps.
Variable input : jsstring.

Definition handleSend : Handler :=
  if truthy (trim input) && negb (truthyFlag (disabled props)) then
    call (OnSendMessage (trim input)) ;;
    call (SetInput [])
  else skip.

Definition handleKeyPress (e : KeyboardEvent) : Handler :=
  if strictEq (key e) (lit "Enter") && negb (shiftKey e) then
    call PreventDefault ;;
    handleSend
  else skip.

(** [onChange={(e) => setInput(e.target.value)}] *)
Definition handleChange (value : jsstring) : Handler :=
  call (SetInput value).

(** The attributes the render puts on the two controls. *)
Definition textareaValue : jsstring := input.
Definition textareaDisabled : bool := truthyFlag (disabled props).
Definition buttonDisabled : bool :=
  truthyFlag (disabled props) || negb (truthy (trim input)).
End ChatInput.

(** The initial state, [useState('')]. *)
Definition initialInput : jsstring := [].

(** The strings passed to [onSendMessage], in order. *)
Fixpoint emitted (h : Handler) : list jsstring :=
  match h with
  | [] => []
  | OnSendMessage m :: h' => m :: emitted h'
  | _ :: h' => emitted h'
  end.

(** The state after the handler: the last queued [setInput], if any. *)
Fixpoint nextInput (input : jsstring) (h : Handler) : jsstring :=
  match h with
  | [] => input
  | SetInput v :: h' => nextInput v h'
  | _ :: h' => nextInput input h'
  end.

(** Whether the handler called [e.preventDefault()]. *)
Fixpoint defaultPrevented (h : Handler) : bool :=
  match h with
  | [] => false
  | PreventDefault :: _ => true
  | _ :: h' => defaultPrevented h'
  end.

(** The events the rendered controls deliver: [onChange] and [onKeyDown] of
    the textarea, [onClick] of the button. *)
Inductive Event :=
| Change (value : jsstring)
| KeyDown (e : KeyboardEvent)
| Click.

Definition dispatch (props : ChatInputProps) (input : jsstring)
    (ev : Event) : Handler :=
  match ev with
  | Change value => handleChange value
  | KeyDown e => handleKeyPress props input e
  | Click => handleSend props input
  end.

(** A session of the component: each event arrives at the render that is
    current, with the props the parent passed to that render.  The result is
    the final state and everything passed to [onSendMessage] on the way. *)
Fixpoint session (input : jsstring) (trace : list (ChatInputProps * Event))
    : jsstring * list jsstring :=
  match trace with
  | [] => (input, [])
  | (props, ev) :: trace' =>
      let h := dispatch props input ev in
      let '(final, out) := session (nextInput input h) trace' in
      (final, emitted h ++ out)
  end.

(** ** Function components and their hooks *)

(** The state cells React keeps for one mounted component, in the order of
    the [useState] calls, and the position of the next call. *)
Record Fiber := { cursor : nat; cells : list jsstring }.

Definition Render (A : Type) : Type := Fiber -> A * Fiber.

Definition ret {A} (a : A) : Render A := fun f => (a, f).

Definition bind {A B} (c : Render A) (k : A -> Render B) : Render B :=
  fun f => let '(a, f') := c f in k a f'.

Notation "x <- c ;; k" := (bind c (fun x => k))
  (at level 100, c at next level, k at level 200, right associativity,
   only parsing) : handler_scope.

(** [useState(init)]: the cell's current value, created with [init] on the
    first render. *)
Definition useState (init : jsstring) : Render jsstring :=
  fun f =>
    match cells f !! cursor f with
    | Some v => (v, {| cursor := S (cursor f); cells := cells f |})
    | None => (init, {| cursor := S (cursor f); cells := cells f ++ [init] |})
    end.

(** One render pass over the cells of a component. *)
Definition renderWith {A} (c : Render A) (cs : list jsstring)
    : A * list jsstring :=
  let '(a, f) := c {| cursor := 0; cells := cs |} in (a, cells f).

(** What [ChatInput] returns, as far as the handlers and the claims go. *)
Record ChatInputView := {
  view_value : jsstring;
  view_textareaDisabled : bool;
  view_buttonDisabled : bool
}.

Definition ChatInput (props : ChatInputProps) : Render ChatInputView :=
  input <- useState [] ;;
  ret {| view_value := textareaValue input;
         view_textareaDisabled := textareaDisabled props;
         view_buttonDisabled := buttonDisabled props input |}.

(** ** types *)

Inductive Role := user | assistant.

(** The string a role is at run time. *)
Definition roleString (r : Role) : jsstring :=
  match r with
  | user => lit "user"
  | assistant => lit "assistant"
  end.

(** [interface Message]; a [Date] is its time value in milliseconds. *)
Record Message := {
  id : jsstring;
  role : Role;
  content : jsstring;
  timestamp : Z
}.

(** ** ChatMessage *)

Inductive VNode :=
| Element (tag : string) (className : jsstring) (children : list VNode)
| Text (value : jsstring).

(** U+1F464 and U+1F916 as surrogate pairs. *)
Definition bustInSilhouette : jsstring := [0xD83D; 0xDC64].
Definition robotFace : jsstring := [0xD83E; 0xDD16].

Definition ChatMessage (message : Message) : Render VNode :=
  ret
    (Element "div" (lit "message " ++ roleString (role message))
       [Element "div" (lit "message-content")
          [Element "div" (lit "message-icon")
             [Text (if strictEq (roleString (role message)) (lit "user")
                    then bustInSilhouette else robotFace)];
           Element "div" (lit "message-text")
             [Text (content message)]]]).

(** ** The response type *)

(** Run-time values a JSON response body is made of. *)
Inductive JSValue :=
| VUndefined
| VNull
| VBoolean (b : bool)
| VNumber (n : Z)
| VString (s : jsstring)
| VArray (elements : list JSValue).

(** The types the interfaces of [types] mention. *)
Inductive TsType :=
| TString
| TArray (element : TsType).

(** A property signature [name: type] or [name?: type]. *)
Record Property := {
  prop_name : string;
  prop_type : TsType;
  prop_optional : bool
}.

Definition Interface := list Property.

(** [interface ChatResponse { answer: string; sources?: string[]; }] *)
Definition ChatResponse : Interface :=
  [ {| prop_name := "answer"; prop_type := TString; prop_optional := false |};
    {| prop_name := "sources"; prop_type := TArray TString;
       prop_optional := true |} ].

(** The shape the specification describes for the same type: an answer, a
    status, and optional sources.  Kept apart from [ChatResponse], which is
    the declaration in the source. *)
Definition ChatResponse_spec : Interface :=
  [ {| prop_name := "answer"; prop_type := TString; prop_optional := false |};
    {| prop_name := "status"; prop_type := TString; prop_optional := false |};
    {| prop_name := "sources"; prop_type := TArray TString;
       prop_optional := true |} ].

Fixpoint hasType (t : TsType) (v : JSValue) : bool :=
  match t, v with
  | TString, VString _ => true
  | TArray t', VArray vs => forallb (hasType t') vs
  | _, _ => false
  end.

Definition isUndefined (v : JSValue) : bool :=
  match v with VUndefined => true | _ => false end.

(** Structural typing of an object against one property signature: a
    required property is present with the declared type; an optional one is
    missing, [undefined], or of the declared type.  Properties the interface
    does not name are not looked at. *)
Definition satisfies (o : gmap string JSValue) (p : Property) : bool :=
  match o !! prop_name p with
  | Some v => hasType (prop_type p) v || (prop_optional p && isUndefined v)
  | None => prop_optional p
  end.

Definition conforms (i : Interface) (o : gmap string JSValue) : bool :=
  forallb (satisfies o) i.

(** The declaration of a property, looked up by name. *)
Definition declares (i : Interface) (name : string) : option Property :=
  find (fun p => bool_decide (prop_name p = name)) i.

(** ** The conversation *)

(** Modelled from the spec: the parent component that owns the conversation,
    receives [onSendMessage] and calls the backend is not among the sources.
    Sections 2, 3 and 5 of the specification describe it: the conversation
    is an append-only sequence of messages; a submission appends the user's
    message and suspends further submissions; the backend's answer appends
    one assistant message derived from it; a failure appends nothing; either
    outcome re-enables the input. *)
Record Conversation := {
  messages : list Message;
  loading : bool
}.

(** Modelled from the spec: the successful result of the backend operation,
    with the two members the source's [ChatResponse] declares. *)
Record Answer := {
  answer : jsstring;
  sources : option (list jsstring)
}.

(** Modelled from the spec: the submission of a question.  [ident] and [now]
    are the fresh identifier and the creation time of the new message. *)
Definition submitQuestion (ident : jsstring) (now : Z) (question : jsstring)
    (c : Conversation) : Conversation :=
  if loading c then c
  else {| messages := messages c ++
            [ {| id := ident; role := user; content := question;
                 timestamp := now |} ];
          loading := true |}.

(** Modelled from the spec: the completion of the outstanding backend call;
    [None] is the failure indication. *)
Definition backendResolved (ident : jsstring) (now : Z)
    (result : option Answer) (c : Conversation) : Conversation :=
  match result with
  | Some r =>
      {| messages := messages c ++
           [ {| id := ident; role := assistant; content := answer r;
                timestamp := now |} ];
         loading := false |}
  | None => {| messages := messages c; loading := false |}
  end.

(** Modelled from the spec: the props the parent passes to the input box
    while the conversation is in the given state. *)
Definition inputProps (c : Conversation) : ChatInputProps :=
  {| disabled := Some (loading c) |}.

(** ** Vocabulary for statements about sessions *)

(** Whether an event gets as far as [handleSend]: a click does, a key press
    does when it passes the guard of [handleKeyPress], a change does not. *)
Definition reachesSend (ev : Event) : bool :=
  match ev with
  | Change _ => false
  | KeyDown e => strictEq (key e) (lit "Enter") && negb (shiftKey e)
  | Click => true
  end.

Definition isChange (ev : Event) : bool :=
  match ev with Change _ => true | _ => false end.

(** The values the textarea reported during a session, in order. *)
Fixpoint typed (trace : list (ChatInputProps * Event)) : list jsstring :=
  match trace with
  | [] => []
  | (_, Change value) :: trace' => value :: typed trace'
  | _ :: trace' => typed trace'
  end.

(** The same event with the keyboard taken away: a key press that reaches
    [handleSend] becomes a click, any other key press disappears. *)
Definition viaButton (pe : ChatInputProps * Event)
    : list (ChatInputProps * Event) :=
  match pe.2 with
  | KeyDown _ => if reachesSend pe.2 then [(pe.1, Click)] else []
  | _ => [pe]
  end.

(** The props with an omitted [disabled] written out as [false]. *)
Definition explicitProps (props : ChatInputProps) : ChatInputProps :=
  match disabled props with
  | None => {| disabled := Some false |}
  | Some _ => props
  end.

(** * Properties *)

(** ** [trim] *)

Lemma trimStart_stop c s :
  isWhiteSpace c = false -> trimStart (c :: s) = c :: s.
Proof. intros Hc. simpl. by rewrite Hc. Qed.

Lemma trimStart_head s c s' :
  trimStart s = c :: s' -> isWhiteSpace c = false.
Proof.
  induction s as [|d s IH]; simpl; [done|].
  destruct (isWhiteSpace d) eqn:Hd; [exact IH|].
  intros [= -> _]. exact Hd.
Qed.

Lemma trimStart_idem s : trimStart (trimStart s) = trimStart s.
Proof.
  destruct (trimStart s) as [|c s'] eqn:E; [done|].
  apply trimStart_stop. eapply trimStart_head, E.
Qed.

Lemma trimStart_app_stop l c r :
  isWhiteSpace c = false -> trimStart (l ++ c :: r) = trimStart l ++ c :: r.
Proof.
  intros Hc. induction l as [|d l IH]; simpl.
  - by rewrite Hc.
  - destruct (isWhiteSpace d); [exact IH | done].
Qed.

Lemma trimStart_suffix s : exists l,
  s = l ++ trimStart s /\ forallb isWhiteSpace l = true.
Proof.
  induction s as [|c s (l & Hs & Hl)]; simpl.
  - by exists [].
  - destruct (isWhiteSpace c) eqn:Hc.
    + exists (c :: l). simpl. rewrite Hc, Hl. split; [by f_equal | done].
    + by exists [].
Qed.

Lemma trimStart_nil_iff s :
  trimStart s = [] <-> forallb isWhiteSpace s = true.
Proof.
  induction s as [|c s IH]; simpl; [done|].
  destruct (isWhiteSpace c); simpl; [exact IH | done].
Qed.

Lemma trimEnd_nil : trimEnd [] = [].
Proof. done. Qed.

Lemma trimEnd_cons_stop c s :
  isWhiteSpace c = false -> trimEnd (c :: s) = c :: trimEnd s.
Proof.
  intros Hc. unfold trimEnd.
  rewrite reverse_cons, (trimStart_app_stop _ c [] Hc).
  by rewrite reverse_app.
Qed.

Lemma trimEnd_idem s : trimEnd (trimEnd s) = trimEnd s.
Proof.
  unfold trimEnd. by rewrite reverse_involutive, trimStart_idem.
Qed.

Lemma trimEnd_prefix s : exists r,
  s = trimEnd s ++ r /\ forallb isWhiteSpace r = true.
Proof.
  destruct (trimStart_suffix (reverse s)) as (l & Hs & Hl).
  exists (reverse l). split.
  - unfold trimEnd. rewrite <- reverse_app, <- Hs.
    by rewrite reverse_involutive.
  - rewrite forallb_forall in *. intros x Hx. apply Hl.
    rewrite <- list_elem_of_In in *. by rewrite elem_of_reverse in Hx.
Qed.

(** [trim] either yields the empty string or keeps a first code unit that is
    not white space. *)
Lemma trim_cases s :
  trim s = [] \/
  exists c t, trimStart s = c :: t /\ isWhiteSpace c = false /\
              trim s = c :: trimEnd t.
Proof.
  unfold trim. destruct (trimStart s) as [|c t] eqn:E; [by left|].
  right. exists c, t. pose proof (trimStart_head _ _ _ E) as Hc.
  by rewrite trimEnd_cons_stop.
Qed.

Lemma trim_idem s : trim (trim s) = trim s.
Proof.
  destruct (trim_cases s) as [-> | (c & t & _ & Hc & ->)]; [done|].
  unfold trim. rewrite trimStart_stop by done.
  by rewrite trimEnd_cons_stop, trimEnd_idem.
Qed.

Lemma trim_nil_iff s : trim s = [] <-> forallb isWhiteSpace s = true.
Proof.
  rewrite <- trimStart_nil_iff. split.
  - destruct (trim_cases s) as [_ | (c & t & _ & _ & ->)]; [|done].
    unfold trim. destruct (trimStart s) as [|c t] eqn:E; [done|].
    rewrite trimEnd_cons_stop by (eapply trimStart_head, E). done.
  - unfold trim. by intros ->.
Qed.

(** [trim s] is [s] without a run of white space at each end. *)
Lemma trim_decompose s : exists l r,
  s = l ++ trim s ++ r /\
  forallb isWhiteSpace l = true /\ forallb isWhiteSpace r = true.
Proof.
  destruct (trimStart_suffix s) as (l & Hs & Hl).
  destruct (trimEnd_prefix (trimStart s)) as (r & Ht & Hr).
  exists l, r. unfold trim. by rewrite <- Ht.
Qed.

Lemma trim_head s c t : trim s = c :: t -> isWhiteSpace c = false.
Proof.
  destruct (trim_cases s) as [-> | (d & u & _ & Hd & ->)]; [done|].
  by intros [= <- _].
Qed.

Lemma trim_last s c : last (trim s) = Some c -> isWhiteSpace c = false.
Proof.
  unfold trim, trimEnd. rewrite last_reverse.
  destruct (trimStart (reverse (trimStart s))) as [|d u] eqn:E; [done|].
  simpl. intros [= <-]. eapply trimStart_head, E.
Qed.

Lemma truthy_true s : truthy s = true <-> s <> [].
Proof. by destruct s. Qed.

Lemma truthy_false s : truthy s = false <-> s = [].
Proof. by destruct s. Qed.

Lemma strictEq_eq s t : strictEq s t = true <-> s = t.
Proof.
  revert t. induction s as [|c s IH]; intros [|d t]; simpl; try done.
  rewrite andb_true_iff, N.eqb_eq, IH. split.
  - by intros [-> ->].
  - by intros [= -> ->].
Qed.

(** ** [handleSend] and [handleKeyPress] *)

Lemma emitted_app h k : emitted (h ++ k) = emitted h ++ emitted k.
Proof.
  induction h as [|[m|v|] h IH]; simpl; by rewrite ?IH.
Qed.

Lemma truthyFlag_false o : truthyFlag o = false <-> o <> Some true.
Proof. by destruct o as [[|]|]. Qed.

(** The two outcomes of [handleSend]. *)
Lemma handleSend_accept props input :
  trim input <> [] -> disabled props <> Some true ->
  handleSend props input = [OnSendMessage (trim input); SetInput []].
Proof.
  intros Ht%truthy_true Hd%truthyFlag_false.
  unfold handleSend. by rewrite Ht, Hd.
Qed.

Lemma handleSend_reject props input :
  trim input = [] \/ disabled props = Some true ->
  handleSend props input = skip.
Proof.
  unfold handleSend. intros [Ht%truthy_false | Hd].
  - by rewrite Ht.
  - rewrite Hd. simpl. by rewrite andb_false_r.
Qed.

Lemma handleSend_cases props input :
  handleSend props input = skip \/
  handleSend props input = [OnSendMessage (trim input); SetInput []] /\
  trim input <> [] /\ disabled props <> Some true.
Proof.
  unfold handleSend.
  destruct (truthy (trim input)) eqn:Ht; [|by left].
  destruct (truthyFlag (disabled props)) eqn:Hd; [by left|].
  right. by rewrite truthy_true in Ht; rewrite truthyFlag_false in Hd.
Qed.

(** The guard of [handleKeyPress] reads the key and the shift flag only. *)
Lemma handleKeyPress_commit props input e :
  key e = lit "Enter" -> shiftKey e = false ->
  handleKeyPress props input e = PreventDefault :: handleSend props input.
Proof.
  intros Hk%strictEq_eq Hs. unfold handleKeyPress. by rewrite Hk, Hs.
Qed.

Lemma handleKeyPress_ignore props input e :
  ~ (key e = lit "Enter" /\ shiftKey e = false) ->
  handleKeyPress props input e = skip.
Proof.
  intros H. unfold handleKeyPress.
  destruct (strictEq (key e) (lit "Enter")) eqn:Hk; [|done].
  destruct (shiftKey e) eqn:Hs; [done|].
  destruct H. by rewrite strictEq_eq in Hk.
Qed.

Lemma handleKeyPress_cases props input e :
  handleKeyPress props input e = skip \/
  handleKeyPress props input e = PreventDefault :: handleSend props input.
Proof.
  unfold handleKeyPress.
  destruct (strictEq (key e) (lit "Enter") && negb (shiftKey e));
    [by right | by left].
Qed.

Lemma emitted_handleKeyPress_reject props input e :
  trim input = [] \/ disabled props = Some true ->
  emitted (handleKeyPress props input e) = [].
Proof.
  intros H. destruct (handleKeyPress_cases props input e) as [-> | ->];
    [done|].
  simpl. by rewrite handleSend_reject.
Qed.

(** Whatever the event, what the component passes on is nothing or the
    trimmed, non-empty input. *)
Lemma emitted_dispatch props input ev :
  emitted (dispatch props input ev) = [] \/
  emitted (dispatch props input ev) = [trim input] /\
  trim input <> [] /\ disabled props <> Some true.
Proof.
  destruct ev as [v | e |]; simpl.
  - by left.
  - destruct (handleKeyPress_cases props input e) as [-> | ->]; [by left|].
    simpl. destruct (handleSend_cases props input) as [-> | (-> & ? & ?)];
      [by left | by right].
  - destruct (handleSend_cases props input) as [-> | (-> & ? & ?)];
      [by left | by right].
Qed.

Lemma session_cons input props ev trace :
  session input ((props, ev) :: trace) =
  ((session (nextInput input (dispatch props input ev)) trace).1,
   emitted (dispatch props input ev) ++
   (session (nextInput input (dispatch props input ev)) trace).2).
Proof.
  simpl. by destruct (session _ trace).
Qed.

(** C1: a submit action on an input whose trim is empty (the empty string or
    white space only) passes nothing to [onSendMessage], whether it comes
    from the button or from a key press, and whatever the props; the button
    is rendered disabled for such an input. *)
Theorem blank_input_emits_nothing props input :
  trim input = [] ->
  emitted (handleSend props input) = [] /\
  (forall e, emitted (handleKeyPress props input e) = []) /\
  buttonDisabled props input = true.
Proof.
  intros Ht. split_and!.
  - rewrite handleSend_reject; [done | by left].
  - intros e. apply emitted_handleKeyPress_reject. by left.
  - unfold buttonDisabled. rewrite Ht. simpl. by rewrite orb_true_r.
Qed.

Lemma blank_input_emits_nothing_witness :
  trim (lit "  ") = [] /\
  emitted (handleSend {| disabled := None |} (lit "  ")) = [] /\
  (forall e, emitted (handleKeyPress {| disabled := None |} (lit "  ") e)
             = []) /\
  buttonDisabled {| disabled := None |} (lit "  ") = true.
Proof.
  split; [reflexivity|].
  apply (blank_input_emits_nothing {| disabled := None |} (lit "  ")).
  reflexivity.
Defined.

(** C2: while the [disabled] flag is set, every submit action, from the
    button or from a key press, is rejected: over a whole session in which
    each event arrives with the flag set, [onSendMessage] is never called;
    each of those events emits nothing whatever the pending input is, and
    the button is rendered disabled. *)
Theorem disabled_session_emits_nothing input trace :
  Forall (fun pe => disabled pe.1 = Some true) trace ->
  (session input trace).2 = [] /\
  Forall (fun pe => forall pending,
            emitted (dispatch pe.1 pending pe.2) = [] /\
            buttonDisabled pe.1 pending = true) trace.
Proof.
  intros H. split.
  - revert input. induction H as [|[props ev] trace Hd _ IH]; intros input;
      [done|].
    rewrite session_cons. simpl in *. rewrite IH, app_nil_r.
    destruct (emitted_dispatch props input ev) as [-> | (_ & _ & Hn)]; done.
  - eapply Forall_impl; [exact H|]. intros [props ev] Hd pending.
    simpl in *. split.
    + destruct (emitted_dispatch props pending ev) as [-> | (_ & _ & Hn)];
        done.
    + unfold buttonDisabled. by rewrite Hd.
Qed.

Lemma disabled_session_emits_nothing_witness :
  let busy := {| disabled := Some true |} in
  let enter := {| key := lit "Enter"; shiftKey := false; ctrlKey := false;
                  altKey := false; metaKey := false |} in
  let trace := [(busy, Change (lit "hello")); (busy, Click);
                (busy, KeyDown enter)] in
  Forall (fun pe => disabled pe.1 = Some true) trace /\
  (session initialInput trace).2 = [] /\
  Forall (fun pe => forall pending,
            emitted (dispatch pe.1 pending pe.2) = [] /\
            buttonDisabled pe.1 pending = true) trace.
Proof.
  intros busy enter trace.
  assert (H : Forall (fun pe => disabled pe.1 = Some true) trace)
    by (repeat constructor).
  split; [exact H|].
  exact (disabled_session_emits_nothing initialInput trace H).
Defined.

(** C3: with a pending input whose trim is not empty and the [disabled] flag
    not set, the submit action calls [onSendMessage] exactly once, with the
    trimmed input, and leaves the pending input empty; so does the Enter key
    without Shift. *)
Theorem submit_emits_trim_and_clears props input :
  trim input <> [] -> disabled props <> Some true ->
  handleSend props input = (call (OnSendMessage (trim input)) ;;
                            call (SetInput [])) /\
  emitted (handleSend props input) = [trim input] /\
  nextInput input (handleSend props input) = [] /\
  (forall e, key e = lit "Enter" -> shiftKey e = false ->
     emitted (handleKeyPress props input e) = [trim input] /\
     nextInput input (handleKeyPress props input e) = []).
Proof.
  intros Ht Hd. pose proof (handleSend_accept props input Ht Hd) as E.
  split_and!; try by rewrite E.
  intros e Hk Hs. rewrite handleKeyPress_commit by done. by rewrite E.
Qed.

Lemma submit_emits_trim_and_clears_witness :
  let props := {| disabled := Some false |} in
  let input := lit "  What is photosynthesis? " in
  trim input = lit "What is photosynthesis?" /\
  emitted (handleSend props input) = [lit "What is photosynthesis?"] /\
  nextInput input (handleSend props input) = [].
Proof.
  intros props input.
  assert (Ht : trim input <> []) by (vm_compute; discriminate).
  assert (Hd : disabled props <> Some true) by (simpl; discriminate).
  destruct (submit_emits_trim_and_clears props input Ht Hd)
    as (_ & He & Hn & _).
  split; [reflexivity|]. split; [exact He | exact Hn].
Defined.

(** C4, as the claim states it, fails: Enter with Control held (and Shift
    not held) is a key press with a modifier, and it submits. *)
Lemma commit_with_control_held :
  let e := {| key := lit "Enter"; shiftKey := false; ctrlKey := true;
              altKey := false; metaKey := false |} in
  let props := {| disabled := None |} in
  handleKeyPress props (lit "hi") e =
    [PreventDefault; OnSendMessage (lit "hi"); SetInput []] /\
  ~ (key e = lit "Enter" /\ shiftKey e = false /\ ctrlKey e = false /\
     altKey e = false /\ metaKey e = false).
Proof.
  split; [reflexivity|]. intros (_ & _ & Hc & _). discriminate Hc.
Qed.

(** C4, amended: a key press attempts a submit exactly when the key is Enter
    and Shift is not held; Control, Alt and Meta are not consulted.  The
    attempt is [preventDefault] followed by [handleSend]; any other key press
    does nothing. *)
Theorem commit_keypress_iff props input e :
  (defaultPrevented (handleKeyPress props input e) = true <->
   key e = lit "Enter" /\ shiftKey e = false) /\
  handleKeyPress props input e =
    (if bool_decide (key e = lit "Enter" /\ shiftKey e = false)
     then call PreventDefault ;; handleSend props input
     else skip) /\
  (forall c a m,
     handleKeyPress props input
       {| key := key e; shiftKey := shiftKey e; ctrlKey := c; altKey := a;
          metaKey := m |} = handleKeyPress props input e).
Proof.
  split_and!.
  - split.
    + intros H. destruct (decide (key e = lit "Enter" /\ shiftKey e = false))
        as [|Hn]; [done|].
      by rewrite handleKeyPress_ignore in H.
    + intros [Hk Hs]. by rewrite handleKeyPress_commit.
  - case_bool_decide as H.
    + destruct H. by apply handleKeyPress_commit.
    + by apply handleKeyPress_ignore.
  - done.
Qed.

(** C8: a rejected submit action (trimmed input empty, or [disabled] set)
    performs no action at all: nothing is emitted, no state update is
    queued, and the pending input after it is the pending input before it.
    From the keyboard the only action is [preventDefault], on the event. *)
Theorem rejected_submit_is_noop props input :
  trim input = [] \/ disabled props = Some true ->
  handleSend props input = skip /\
  nextInput input (handleSend props input) = input /\
  (forall e, nextInput input (handleKeyPress props input e) = input /\
             emitted (handleKeyPress props input e) = []).
Proof.
  intros H. pose proof (handleSend_reject props input H) as E.
  split_and!; try by rewrite E.
  intros e. destruct (handleKeyPress_cases props input e) as [-> | ->];
    [done|]. by rewrite E.
Qed.

Lemma rejected_submit_is_noop_witness :
  let props := {| disabled := Some true |} in
  let input := lit "draft" in
  handleSend props input = skip /\
  nextInput input (handleSend props input) = lit "draft".
Proof.
  intros props input.
  destruct (rejected_submit_is_noop props input (or_intror eq_refl))
    as (E & Hn & _).
  split; [exact E | exact Hn].
Defined.

(** C9: over any session, from any pending input and under any props, every
    string passed to [onSendMessage] is non-empty and is a fixed point of
    [trim]; its first and last code units are not white space. *)
Theorem emitted_strings_are_trimmed input trace :
  Forall (fun s => s <> [] /\ trim s = s /\
                   (forall c, head s = Some c -> isWhiteSpace c = false) /\
                   (forall c, last s = Some c -> isWhiteSpace c = false))
         (session input trace).2.
Proof.
  revert input. induction trace as [|[props ev] trace IH]; intros input.
  - simpl. constructor.
  - rewrite session_cons. simpl. apply Forall_app. split; [|apply IH].
    destruct (emitted_dispatch props input ev) as [-> | (-> & Hne & _)];
      [constructor|].
    constructor; [|constructor]. split_and!.
    + done.
    + apply trim_idem.
    + intros c Hc. destruct (trim input) as [|d t] eqn:E; [done|].
      simpl in Hc. injection Hc as <-. eapply trim_head, E.
    + apply trim_last.
Qed.

(** ** [ChatMessage] *)

(** C6: rendering a message is a projection of it.  The render calls no hook
    and performs no action: whatever state cells the mounted component has,
    they are the same after the render, and the message, a value, is only
    read.  The output carries the content verbatim and tells the roles
    apart: class [message user] with the bust icon for [user], class
    [message assistant] with the robot icon for [assistant]. *)
Theorem ChatMessage_pure_projection message cs :
  renderWith (ChatMessage message) cs =
    (Element "div"
       (match role message with
        | user => lit "message user"
        | assistant => lit "message assistant"
        end)
       [Element "div" (lit "message-content")
          [Element "div" (lit "message-icon")
             [Text (match role message with
                    | user => bustInSilhouette
                    | assistant => robotFace
                    end)];
           Element "div" (lit "message-text") [Text (content message)]]],
     cs) /\
  lit "message user" <> lit "message assistant" /\
  bustInSilhouette <> robotFace.
Proof.
  split; [by destruct message as [i [] c t] | done].
Qed.

(** C10: the rendered output depends on the role and the content only: two
    messages that agree on both render alike, whatever their identifiers and
    timestamps. *)
Theorem ChatMessage_ignores_id_and_timestamp m1 m2 :
  role m1 = role m2 -> content m1 = content m2 ->
  ChatMessage m1 = ChatMessage m2 /\
  (forall cs, renderWith (ChatMessage m1) cs = renderWith (ChatMessage m2) cs).
Proof.
  intros Hr Hc. unfold renderWith, ChatMessage. by rewrite Hr, Hc.
Qed.

Lemma ChatMessage_ignores_id_and_timestamp_witness :
  let m1 := {| id := lit "1"; role := assistant; content := lit "Hello";
               timestamp := 1700000000000 |} in
  let m2 := {| id := lit "2"; role := assistant; content := lit "Hello";
               timestamp := 1700000060000 |} in
  m1 <> m2 /\ ChatMessage m1 = ChatMessage m2.
Proof.
  intros m1 m2. split; [discriminate|].
  exact (proj1 (ChatMessage_ignores_id_and_timestamp m1 m2 eq_refl eq_refl)).
Defined.

(** ** [ChatResponse] *)

Lemma hasType_string v : hasType TString v = true <-> exists s, v = VString s.
Proof.
  destruct v; simpl; split; try done; try by intros [? [=]].
  by eexists.
Qed.

Lemma hasType_string_array v :
  hasType (TArray TString) v = true <->
  exists l : list jsstring, v = VArray (VString <$> l).
Proof.
  split.
  - destruct v as [| | | | |vs]; simpl; try done.
    intros H. induction vs as [|v vs IH]; [by exists []|].
    simpl in H. apply andb_true_iff in H as [[s ->]%hasType_string H].
    destruct (IH H) as [l [= ->]]. by exists (s :: l).
  - intros [l ->]. simpl. induction l as [|s l IH]; [done|]. exact IH.
Qed.

(** C5, as the claim states it, fails: the type declares no [status].  An
    object with an answer and nothing else is a [ChatResponse], while the
    shape of the claim requires a status of it. *)
Lemma ChatResponse_without_status :
  let o : gmap string JSValue := {[ "answer" := VString (lit "Hi") ]} in
  declares ChatResponse "status" = None /\
  conforms ChatResponse o = true /\
  conforms ChatResponse_spec o = false.
Proof. by vm_compute. Qed.

(** C5, amended: the type consists of an [answer] of type string and an
    optional [sources] of type string array, and of nothing else.  An object
    is of the type exactly when its answer is a string and its sources are
    missing, undefined or an array of strings; a [status] on it, as the
    backend sends one, is neither required nor looked at. *)
Theorem ChatResponse_shape :
  (forall name,
     declares ChatResponse name =
       if bool_decide (name = "answer") then
         Some {| prop_name := "answer"; prop_type := TString;
                 prop_optional := false |}
       else if bool_decide (name = "sources") then
         Some {| prop_name := "sources"; prop_type := TArray TString;
                 prop_optional := true |}
       else None) /\
  (forall o : gmap string JSValue,
     conforms ChatResponse o = true <->
     (exists s, o !! "answer" = Some (VString s)) /\
     (o !! "sources" = None \/ o !! "sources" = Some VUndefined \/
      exists l : list jsstring, o !! "sources" = Some (VArray (VString <$> l)))) /\
  (forall (o : gmap string JSValue) v,
     conforms ChatResponse (<["status" := v]> o) = conforms ChatResponse o).
Proof.
  split_and!.
  - intros name. unfold declares, ChatResponse. simpl.
    repeat case_bool_decide; congruence.
  - intros o. unfold conforms, ChatResponse, satisfies.
    cbn [forallb prop_name prop_type prop_optional].
    rewrite andb_true_r, andb_true_iff. f_equiv.
    + destruct (o !! "answer") as [v|]; [|by split; [|intros [? [=]]]].
      rewrite andb_false_l, orb_false_r, hasType_string.
      split; intros [s E]; exists s; congruence.
    + destruct (o !! "sources") as [v|]; [|by split; [left|]].
      rewrite andb_true_l, orb_true_iff, hasType_string_array. split.
      * intros [[l ->] | H]; [right; right; by exists l|].
        destruct v; try done. by right; left.
      * intros [[=] | [[= ->] | [l [= ->]]]]; [by right | left; by exists l].
  - intros o v. unfold conforms, ChatResponse, satisfies. simpl.
    by rewrite !lookup_insert_ne.
Qed.

(** ** The conversation *)

(** C7: a successful round trip started while no request is outstanding
    grows the conversation by exactly two messages: the user's question and
    then one assistant message carrying the backend's answer, in that order;
    the input is enabled again afterwards. *)
Theorem round_trip_appends_two c question r idu tu ida ta :
  loading c = false ->
  let c' := backendResolved ida ta (Some r)
              (submitQuestion idu tu question c) in
  messages c' =
    messages c ++
      [ {| id := idu; role := user; content := question; timestamp := tu |};
        {| id := ida; role := assistant; content := answer r;
           timestamp := ta |} ] /\
  List.length (messages c') = (List.length (messages c) + 2)%nat /\
  disabled (inputProps (submitQuestion idu tu question c)) = Some true /\
  disabled (inputProps c') = Some false.
Proof.
  intros Hl. unfold submitQuestion. rewrite Hl. simpl.
  rewrite <- app_assoc. split_and!; try done.
  rewrite !length_app. simpl. lia.
Qed.

Lemma round_trip_appends_two_witness :
  let c := {| messages := []; loading := false |} in
  let q := lit "What is photosynthesis?" in
  let r := {| answer := lit "Photosynthesis is..."; sources := None |} in
  let c' := backendResolved (lit "2") 2 (Some r)
              (submitQuestion (lit "1") 1 q c) in
  emitted (handleSend (inputProps c) (lit " What is photosynthesis? ")) = [q]
  /\ List.length (messages c') = 2%nat
  /\ (role <$> messages c') = [user; assistant]
  /\ (content <$> messages c') = [q; lit "Photosynthesis is..."].
Proof.
  intros c q r c'.
  destruct (round_trip_appends_two c q r (lit "1") 1%Z (lit "2") 2%Z eq_refl)
    as (Hm & Hlen & _).
  split; [reflexivity|]. split; [exact Hlen|].
  fold c' in Hm. rewrite Hm. split; reflexivity.
Defined.

(** ** The state cell of [ChatInput] *)

(** The first render creates the cell with the empty string; the button of a
    freshly mounted input is therefore disabled. *)
Lemma ChatInput_mount props :
  renderWith (ChatInput props) [] =
    ({| view_value := initialInput;
        view_textareaDisabled := truthyFlag (disabled props);
        view_buttonDisabled := true |}, [initialInput]).
Proof.
  unfold renderWith, ChatInput, bind, useState, ret, buttonDisabled. simpl.
  by rewrite orb_true_r.
Qed.

(** Later renders show the cell as the last handler left it. *)
Lemma ChatInput_rerender props input :
  renderWith (ChatInput props) [input] =
    ({| view_value := input;
        view_textareaDisabled := textareaDisabled props;
        view_buttonDisabled := buttonDisabled props input |}, [input]).
Proof. done. Qed.

(** The button is rendered disabled exactly when a click would be rejected. *)
Lemma buttonDisabled_iff_reject props input :
  buttonDisabled props input = true <-> handleSend props input = skip.
Proof.
  unfold buttonDisabled, handleSend.
  destruct (truthyFlag (disabled props)), (truthy (trim input)); by simpl.
Qed.

Example shift_enter_is_a_newline :
  handleKeyPress {| disabled := None |} (lit "hi")
    {| key := lit "Enter"; shiftKey := true; ctrlKey := false;
       altKey := false; metaKey := false |} = skip.
Proof. reflexivity. Qed.

Example typing_then_enter :
  session initialInput
    [ ({| disabled := None |}, Change (lit " hi "));
      ({| disabled := None |},
       KeyDown {| key := lit "Enter"; shiftKey := false; ctrlKey := false;
                  altKey := false; metaKey := false |});
      ({| disabled := Some true |}, Click) ]
  = (initialInput, [lit "hi"]).
Proof. reflexivity. Qed.

Example trim_unicode_space :
  trim ([0xA0; 0x3000] ++ lit "a b" ++ [0x0A; 0xFEFF]) = lit "a b".
Proof. reflexivity. Qed.

(** ** Sessions of [ChatInput] *)

(** What one event does to the component, in three cases: nothing changes;
    a change installs the reported value; an accepted submit emits the
    trimmed input and clears it. *)
Lemma dispatch_outcome props input ev :
  (emitted (dispatch props input ev) = [] /\
   nextInput input (dispatch props input ev) = input /\
   isChange ev = false) \/
  (exists v, ev = Change v /\
   emitted (dispatch props input ev) = [] /\
   nextInput input (dispatch props input ev) = v) \/
  (emitted (dispatch props input ev) = [trim input] /\
   nextInput input (dispatch props input ev) = [] /\
   trim input <> [] /\ disabled props <> Some true /\
   reachesSend ev = true).
Proof.
  destruct ev as [v | e |]; cbn [dispatch isChange reachesSend].
  - right; left. by exists v.
  - unfold handleKeyPress.
    destruct (strictEq (key e) (lit "Enter") && negb (shiftKey e));
      [|by left].
    destruct (handleSend_cases props input) as [-> | (-> & ? & ?)];
      [left | right; right]; by split_and!.
  - destruct (handleSend_cases props input) as [-> | (-> & ? & ?)];
      [left | right; right]; by split_and!.
Qed.

Lemma session_skip input props ev trace :
  emitted (dispatch props input ev) = [] ->
  nextInput input (dispatch props input ev) = input ->
  session input ((props, ev) :: trace) = session input trace.
Proof.
  intros He Hn. rewrite session_cons, He, Hn. by destruct (session _ _).
Qed.

Lemma session_app input t1 t2 :
  session input (t1 ++ t2) =
  ((session (session input t1).1 t2).1,
   (session input t1).2 ++ (session (session input t1).1 t2).2).
Proof.
  revert input. induction t1 as [|[props ev] t1 IH]; intros input.
  - simpl. by destruct (session _ _).
  - rewrite <- app_comm_cons, !session_cons, IH. simpl.
    by rewrite app_assoc.
Qed.

(** With blank pending text and nothing typed, nothing is sent and the
    pending text stays as it is, however often the user clicks or presses
    keys and whatever the props are. *)
Theorem blank_session_stays_silent input trace :
  trim input = [] ->
  Forall (fun pe => isChange pe.2 = false) trace ->
  session input trace = (input, []).
Proof.
  intros Ht H. induction H as [|[props ev] trace Hc _ IH]; [done|].
  simpl in Hc.
  destruct (dispatch_outcome props input ev)
    as [(He & Hn & _) | [(v & -> & _) | (_ & _ & Hne & _)]]; try done.
  by rewrite session_skip.
Qed.

Lemma blank_session_stays_silent_witness :
  let enter := {| key := lit "Enter"; shiftKey := false; ctrlKey := false;
                  altKey := false; metaKey := false |} in
  let idle := {| disabled := None |} in
  session initialInput [(idle, Click); (idle, KeyDown enter); (idle, Click)]
  = (initialInput, []).
Proof.
  intros enter idle.
  apply (blank_session_stays_silent initialInput
           [(idle, Click); (idle, KeyDown enter); (idle, Click)]).
  - reflexivity.
  - repeat constructor.
Defined.

(** Typing alone never sends: over a session made of change events only,
    [onSendMessage] is not called and the pending text is the last value the
    textarea reported (the initial one if there was no event). *)
Theorem typing_only_session input trace :
  Forall (fun pe => isChange pe.2 = true) trace ->
  session input trace = (default input (last (typed trace)), []).
Proof.
  intros H. revert input.
  induction H as [|[props ev] trace Hc _ IH]; intros input; [done|].
  destruct ev as [v | e |]; try done.
  rewrite session_cons, IH.
  change (typed ((props, Change v) :: trace)) with (v :: typed trace).
  rewrite last_cons. by destruct (last (typed trace)).
Qed.

Lemma typing_only_session_witness :
  let idle := {| disabled := None |} in
  session initialInput
    [(idle, Change (lit "h")); (idle, Change (lit "hi"))]
  = (lit "hi", []).
Proof.
  intros idle.
  apply (typing_only_session initialInput
           [(idle, Change (lit "h")); (idle, Change (lit "hi"))]).
  repeat constructor.
Defined.

(** Each call of [onSendMessage] is owed to one event that reached
    [handleSend]: a session never sends more messages than it had clicks and
    Enter presses without Shift. *)
Theorem emissions_bounded_by_submits input trace :
  (List.length (session input trace).2 <=
   List.length (List.filter (fun pe => reachesSend pe.2) trace))%nat.
Proof.
  revert input. induction trace as [|[props ev] trace IH]; intros input;
    [done|].
  rewrite session_cons. simpl. rewrite length_app.
  specialize (IH (nextInput input (dispatch props input ev))).
  destruct (dispatch_outcome props input ev)
    as [(He & _) | [(v & -> & He & _) | (He & _ & _ & _ & Hr)]].
  - rewrite He. simpl. destruct (reachesSend ev); simpl; lia.
  - simpl in *. lia.
  - rewrite He, Hr. simpl. lia.
Qed.


(** The component sends only what was typed into it: every string passed to
    [onSendMessage] during a session is the trim of the text the session
    started with or of a value the textarea reported in a change event. *)
Theorem emitted_strings_were_typed input trace :
  Forall (fun s => s <> [] /\
                   (s = trim input \/ exists v, v ∈ typed trace /\ s = trim v))
         (session input trace).2.
Proof.
  revert input. induction trace as [|[props ev] trace IH]; intros input;
    [constructor|].
  rewrite session_cons. cbn [snd]. apply Forall_app.
  specialize (IH (nextInput input (dispatch props input ev))).
  destruct (dispatch_outcome props input ev)
    as [(He & Hn & Hc) | [(v & -> & He & Hn) | (He & Hn & Hne & _)]];
    rewrite He, Hn in *; (split; [by repeat constructor|]).
  - eapply Forall_impl; [exact IH|]. intros s (Hs & [-> | (v & Hv & ->)]).
    + by split; [|left].
    + split; [done|]. right. exists v. split; [|done].
      by destruct ev.
  - eapply Forall_impl; [exact IH|]. intros s (Hs & [-> | (w & Hw & ->)]).
    + split; [done|]. right. exists v. split; [apply list_elem_of_here|done].
    + split; [done|]. right. exists w. split; [|done].
      by apply list_elem_of_further.
  - eapply Forall_impl; [exact IH|]. intros s (Hs & [-> | (v & Hv & ->)]).
    + done.
    + split; [done|]. right. exists v. split; [|done].
      by destruct ev.
Qed.

(** The keyboard adds nothing to the button: replacing each Enter press
    without Shift by a click and dropping every other key press leaves the
    messages sent and the final pending text of a session as they were. *)
Theorem keyboard_amounts_to_button input trace :
  session input (trace ≫= viaButton) = session input trace.
Proof.
  revert input. induction trace as [|[props ev] trace IH]; intros input;
    [done|].
  change (((props, ev) :: trace) ≫= viaButton)
    with (viaButton (props, ev) ++ (trace ≫= viaButton)).
  destruct ev as [v | e |]; unfold viaButton; cbn [snd fst].
  - cbn [app]. by rewrite !session_cons, IH.
  - destruct (reachesSend (KeyDown e)) eqn:G; cbn [app].
    + rewrite !session_cons, <- IH. cbn [dispatch]. unfold handleKeyPress.
      cbn [reachesSend] in G. by rewrite G.
    + rewrite IH. symmetry. cbn [reachesSend] in G.
      apply session_skip; cbn [dispatch]; unfold handleKeyPress;
        by rewrite G.
  - cbn [app]. by rewrite !session_cons, IH.
Qed.

(** Leaving [disabled] out is the same as passing [false]: the render shows
    the same attributes and a session sends the same messages and ends with
    the same pending text. *)
Theorem omitted_disabled_is_false input trace :
  session input ((fun pe => (explicitProps pe.1, pe.2)) <$> trace) =
    session input trace /\
  Forall (fun pe => forall cs,
            renderWith (ChatInput (explicitProps pe.1)) cs =
            renderWith (ChatInput pe.1) cs) trace.
Proof.
  assert (Hd : forall props pending ev,
             dispatch (explicitProps props) pending ev =
             dispatch props pending ev).
  { intros [[b|]] pending ev; [done|]. by destruct ev. }
  split.
  - revert input. induction trace as [|[props ev] trace IH]; intros input;
      [done|].
    rewrite fmap_cons. cbn [fst snd].
    by rewrite !session_cons, Hd, IH.
  - apply Forall_forall. by intros [[[b|]] ev] _ cs.
Qed.

(** Text typed while a request is in flight is kept: clicks and key presses
    that arrive with [disabled] set leave the pending text alone, and the
    first click once the flag is cleared sends it, trimmed, and clears it. *)
Theorem draft_survives_in_flight input busy props :
  Forall (fun pe => disabled pe.1 = Some true /\ isChange pe.2 = false) busy ->
  trim input <> [] -> disabled props <> Some true ->
  session input (busy ++ [(props, Click)]) = ([], [trim input]).
Proof.
  intros H Ht Hd. induction H as [|[p ev] busy [Hp Hc] _ IH].
  - rewrite app_nil_l, session_cons. cbn [dispatch session fst snd].
    by rewrite handleSend_accept.
  - simpl in Hp, Hc. rewrite <- app_comm_cons.
    destruct (dispatch_outcome p input ev)
      as [(He & Hn & _) | [(v & -> & _) | (_ & _ & _ & Hne & _)]];
      try done.
    by rewrite session_skip.
Qed.

Lemma draft_survives_in_flight_witness :
  let busy := {| disabled := Some true |} in
  let idle := {| disabled := Some false |} in
  let enter := {| key := lit "Enter"; shiftKey := false; ctrlKey := false;
                  altKey := false; metaKey := false |} in
  session (lit " next question ")
    ([(busy, Click); (busy, KeyDown enter)] ++ [(idle, Click)])
  = ([], [lit "next question"]).
Proof.
  intros busy idle enter.
  apply (draft_survives_in_flight (lit " next question ")
           [(busy, Click); (busy, KeyDown enter)] idle).
  - repeat constructor.
  - vm_compute. discriminate.
  - simpl. discriminate.
Defined.

(** ** [ChatMessage], the other way round *)

(** The rendering loses neither the role nor the content: two messages
    render alike exactly when they agree on both, so messages that differ in
    role or in content are shown differently. *)
Theorem ChatMessage_shows_role_and_content m1 m2 cs :
  renderWith (ChatMessage m1) cs = renderWith (ChatMessage m2) cs <->
  role m1 = role m2 /\ content m1 = content m2.
Proof.
  split.
  - unfold renderWith, ChatMessage, ret. cbn [cells].
    intros [= Hclass _ Hcontent]. split; [|done].
    by destruct (role m1), (role m2).
  - intros [Hr Hc]. unfold renderWith, ChatMessage. by rewrite Hr, Hc.
Qed.

(** ** The render after a submit *)

(** Once a submit has been accepted, the next render shows an empty textarea
    and a disabled send button, whatever props that render receives. *)
Theorem view_after_accepted_submit props props' input :
  trim input <> [] -> disabled props <> Some true ->
  renderWith (ChatInput props') [nextInput input (handleSend props input)] =
    ({| view_value := [];
        view_textareaDisabled := truthyFlag (disabled props');
        view_buttonDisabled := true |}, [[]]).
Proof.
  intros Ht Hd. rewrite handleSend_accept by done. cbn [nextInput].
  rewrite ChatInput_rerender. unfold buttonDisabled, textareaDisabled.
  cbn [trim trimStart trimEnd reverse rev_append truthy negb].
  by rewrite orb_true_r.
Qed.

Lemma view_after_accepted_submit_witness :
  let idle := {| disabled := None |} in
  let busy := {| disabled := Some true |} in
  renderWith (ChatInput busy) [nextInput (lit "hi") (handleSend idle (lit "hi"))]
  = ({| view_value := []; view_textareaDisabled := true;
        view_buttonDisabled := true |}, [[]]).
Proof.
  intros idle busy.
  apply (view_after_accepted_submit idle busy (lit "hi")).
  - vm_compute. discriminate.
  - simpl. discriminate.
Defined.
